(** * Faker9ja: the unique-value selector, the Degree mixin and the JSON
      structure validation

    A shallow embedding of [fakernaija/utils.py] and
    [fakernaija/mixins/degree_mixin.py].

    - Python [str] is [string]; [set[str]] is [gset string]; [list[str]] is
      [list string]; a JSON object ([dict[str, Any]]) is [gmap string V] for
      an arbitrary type [V] of values.
    - A Python call that may raise returns [exn + A]; a call that may mutate
      an object it was handed returns the object's final state next to the
      result, also when it raises (a cleared set stays cleared).
    - [random.choice] is a parameter [choice] of every function that calls
      it; [random_choice r] is the library function at the random draw [r]. *)

From stdpp Require Import gmap strings list fin_maps fin_sets.

Open Scope string_scope.

Set Warnings "-clear-no-such-hyp".

(** ** Exceptions *)

(** The [ValueError]s of the two modules, told apart by what the message
    reports rather than by its text. *)
Inductive value_error : Type :=
  | InvalidDegreeType
  | JSONDecode (file_path : string)
  | MissingKeys (missing_keys : gset string)
  | InvalidKeys (invalid_keys : gset string).

Inductive exn : Type :=
  | FileNotFoundError (file_path : string)
  | ValueError (why : value_error)
  | IndexError.

#[global] Instance value_error_eq_dec : EqDecision value_error.
Proof. solve_decision. Defined.

#[global] Instance exn_eq_dec : EqDecision exn.
Proof. solve_decision. Defined.

(** ** [random.choice]

    [random.choice(seq)] raises [IndexError] on an empty sequence and
    otherwise returns [seq[randbelow(len(seq))]]; [r] is the raw draw and
    [r mod len(seq)] the index below [len(seq)] obtained from it. *)
Definition random_choice (r : nat) (seq : list string) : exn + string :=
  if bool_decide (length seq = 0) then inl IndexError
  else match seq !! (r mod length seq) with
       | Some v => inr v
       | None => inl IndexError
       end.

(** The number of draws below [len(seq)] on which [random.choice] returns
    [v]: under a uniform draw, [v] has probability
    [choice_weight v seq / length seq]. *)
Definition choice_weight (v : string) (seq : list string) : nat :=
  length (filter (λ r, random_choice r seq = inr v) (List.seq 0 (length seq))).

(** The two objects a selector call is handed, both by reference. *)
Record selector_args : Type := SelectorArgs {
  values : list string;
  used_values : gset string
}.

(** ** fakernaija/utils.py *)
Module utils.

Section json.
Context {V : Type}.

(** The file system and the JSON decoder are outside the program:
    [open_file p] is [None] when opening raises [FileNotFoundError], and
    [json_load s] is [None] when decoding raises [json.JSONDecodeError]. *)
Variable open_file : string → option string.
Variable json_load : string → option (list (gmap string V)).

(** One iteration of the loop of [validate_json_structure]. *)
Definition validate_entry (entry : gmap string V) (required_keys : list string)
  : exn + unit :=
  let entry_keys : gset string := dom entry in
  let required_keys_set : gset string := list_to_set required_keys in
  let missing_keys := required_keys_set ∖ entry_keys in
  let invalid_keys := entry_keys ∖ required_keys_set in
  if bool_decide (missing_keys ≠ ∅) then inl (ValueError (MissingKeys missing_keys))
  else if bool_decide (invalid_keys ≠ ∅) then inl (ValueError (InvalidKeys invalid_keys))
  else inr ().

Fixpoint validate_json_structure (data : list (gmap string V))
    (required_keys : list string) : exn + unit :=
  match data with
  | [] => inr ()
  | entry :: data =>
      match validate_entry entry required_keys with
      | inl e => inl e
      | inr _ => validate_json_structure data required_keys
      end
  end.

(** [json.JSONDecodeError] is the only [ValueError] the [except] clauses
    catch: the one raised by the validation passes through. *)
Definition load_json (file_path : string) (required_keys : list string)
  : exn + list (gmap string V) :=
  match open_file file_path with
  | None => inl (FileNotFoundError file_path)
  | Some file =>
      match json_load file with
      | None => inl (ValueError (JSONDecode file_path))
      | Some data =>
          match validate_json_structure data required_keys with
          | inl e => inl e
          | inr _ => inr data
          end
      end
  end.
End json.

(** [available_values] when [random.choice] is reached, with the objects
    as the statements before it leave them. [list(available_values)] is
    [elements available_values]: one listing without repeats, in an order
    that no statement below depends on, each being about every draw. *)
Definition available (a : selector_args) : gset string * selector_args :=
  let available_values := list_to_set (values a) ∖ used_values a in
  if bool_decide (available_values = ∅) then
    let a := {| values := values a; used_values := ∅ |} in
    (list_to_set (values a), a)
  else (available_values, a).

Definition get_unique_value (choice : list string → exn + string)
    (a : selector_args) : (exn + string) * selector_args :=
  let '(available_values, a) := available a in
  (choice (elements available_values), a).

End utils.

(** ** fakernaija/mixins/degree_mixin.py *)
Module degree_mixin.

(** [fakernaija.providers.degree_provider.DegreeProvider] belongs to
    another module: its two lookups are taken as they are used here, as
    functions from the optional filter to a list of strings. *)
Record DegreeProvider : Type := {
  get_degrees : option string → list string;
  get_degree_initials : option string → list string
}.

Record Degree : Type := {
  degree_provider : DegreeProvider;
  _used_degrees : gset string
}.

(** [Degree()] *)
Definition __init__ (provider : DegreeProvider) : Degree :=
  {| degree_provider := provider; _used_degrees := ∅ |}.

(** Truth value of a [str | None]: [None] and the empty string are false. *)
Definition truthy (s : option string) : bool :=
  match s with
  | None => false
  | Some s => bool_decide (s ≠ "")
  end.

Definition degree_types : list string := ["undergraduate"; "masters"; "doctorate"].

(** [degree_type not in [...]]; [None] is not an element of a list of
    strings. *)
Definition not_in (degree_type : option string) (l : list string) : bool :=
  match degree_type with
  | None => true
  | Some s => bool_decide (s ∉ l)
  end.

(** The same body as [utils.get_unique_value]; [self] is not used. *)
Definition _available (a : selector_args) : gset string * selector_args :=
  let available_values := list_to_set (values a) ∖ used_values a in
  if bool_decide (available_values = ∅) then
    let a := {| values := values a; used_values := ∅ |} in
    (list_to_set (values a), a)
  else (available_values, a).

Definition _get_unique_value (choice : list string → exn + string)
    (self : Degree) (a : selector_args) : (exn + string) * selector_args :=
  let '(available_values, a) := _available a in
  (choice (elements available_values), a).

(** The list the provider hands to [degree] (lines 55 to 58). *)
Definition degrees_of (self : Degree) (degree_type : option string)
    (initial : bool) : list string :=
  if initial then get_degree_initials (degree_provider self) degree_type
  else get_degrees (degree_provider self) degree_type.

(** [used_values] is [self._used_degrees] itself: what the selector does
    to it is done to the field, before [add] and also when the call
    raises. *)
Definition degree (choice : list string → exn + string) (self : Degree)
    (degree_type : option string) (initial : bool) : (exn + string) * Degree :=
  if truthy degree_type && not_in degree_type degree_types then
    (inl (ValueError InvalidDegreeType), self)
  else
    let degrees := degrees_of self degree_type initial in
    let '(r, a) :=
      _get_unique_value choice self
        {| values := degrees; used_values := _used_degrees self |} in
    let self := {| degree_provider := degree_provider self;
                   _used_degrees := used_values a |} in
    match r with
    | inl e => (inl e, self)
    | inr degree =>
        (inr degree, {| degree_provider := degree_provider self;
                        _used_degrees := {[degree]} ∪ _used_degrees self |})
    end.

(** Consecutive calls [degree(degree_type, initial)] on one object, one
    random draw per call; the run stops at the first call that raises. *)
Fixpoint degree_calls (rs : list nat) (self : Degree)
    (degree_type : option string) (initial : bool)
  : (exn + list string) * Degree :=
  match rs with
  | [] => (inr [], self)
  | r :: rs =>
      match degree (random_choice r) self degree_type initial with
      | (inl e, self) => (inl e, self)
      | (inr d, self) =>
          match degree_calls rs self degree_type initial with
          | (inl e, self) => (inl e, self)
          | (inr ds, self) => (inr (d :: ds), self)
          end
      end
  end.

End degree_mixin.

(** ** Vocabulary of the statements *)

(** The filter passes the check of line 51 of the mixin: it is [None], the
    empty string, or one of the three recognized types. *)
Definition accepted (degree_type : option string) : Prop :=
  ∀ s, degree_type = Some s → s = "" ∨ s ∈ degree_mixin.degree_types.

(** [self] with [u] as its used-set. *)
Definition with_used (self : degree_mixin.Degree) (u : gset string)
  : degree_mixin.Degree :=
  {| degree_mixin.degree_provider := degree_mixin.degree_provider self;
     degree_mixin._used_degrees := u |}.

(** Every entry of [data] has exactly the required keys. *)
Definition well_keyed {V : Type} (required_keys : list string)
    (data : list (gmap string V)) : Prop :=
  Forall (λ entry, dom entry = list_to_set required_keys) data.

(** Some entry of [data] misses a required key or has another one. *)
Definition ill_keyed {V : Type} (required_keys : list string)
    (data : list (gmap string V)) : Prop :=
  Exists (λ entry, dom entry ≠ list_to_set required_keys) data.

(** ** Sample data *)

(** A provider with two degrees of each kind and no doctorate. *)
Definition sample_provider : degree_mixin.DegreeProvider :=
  {| degree_mixin.get_degrees := λ degree_type,
       if bool_decide (degree_type = Some "doctorate") then []
       else ["Bachelor of Science"; "Master of Science"];
     degree_mixin.get_degree_initials := λ degree_type,
       if bool_decide (degree_type = Some "doctorate") then []
       else ["B.Sc."; "M.Sc."] |}.

(** The first-name records of [tests/test_names.py], with the values kept
    as strings. *)
Definition sample_names : list (gmap string string) :=
  [ {[ "tribe" := "igbo"; "gender" := "female"; "name" := "Ugochi" ]};
    {[ "tribe" := "yoruba"; "gender" := "male"; "name" := "Seyi" ]} ].

(** * Properties *)

(** ** [random.choice] *)
Section random_choice_facts.
Implicit Types (r : nat) (l : list string) (v : string).

Lemma random_choice_nil r : random_choice r [] = inl IndexError.
Proof. reflexivity. Qed.

Lemma random_choice_lookup r l :
  l ≠ [] → ∃ v, l !! (r mod length l) = Some v ∧ random_choice r l = inr v.
Proof.
  intros Hl. unfold random_choice.
  assert (length l ≠ 0) as Hn by (destruct l; [done | simpl; lia]).
  rewrite bool_decide_eq_false_2 by done.
  destruct (lookup_lt_is_Some_2 l (r mod length l)) as [v Hv].
  { by apply Nat.mod_upper_bound. }
  exists v. by rewrite Hv.
Qed.

Lemma random_choice_elem_of r l :
  l ≠ [] → ∃ v, random_choice r l = inr v ∧ v ∈ l.
Proof.
  intros Hl. destruct (random_choice_lookup r l Hl) as (v & Hv & Hr).
  exists v. split; [done |]. by eapply list_elem_of_lookup_2.
Qed.

Lemma random_choice_inr r l v : random_choice r l = inr v → v ∈ l.
Proof.
  destruct l as [| x l'] eqn:El; [done |]. rewrite <- El. intros Hr.
  destruct (random_choice_elem_of r l) as (w & Hw & Hin); [by subst |].
  congruence.
Qed.

Lemma random_choice_inl r l e : random_choice r l = inl e → e = IndexError ∧ l = [].
Proof.
  destruct l as [| x l'] eqn:El.
  - by intros [= <-].
  - rewrite <- El. intros Hr.
    destruct (random_choice_elem_of r l) as (w & Hw & _); [by subst |].
    congruence.
Qed.

(** Below [len(seq)] the draw is the index. *)
Lemma random_choice_lt r l v :
  r < length l → random_choice r l = inr v ↔ l !! r = Some v.
Proof.
  intros Hr. unfold random_choice.
  rewrite bool_decide_eq_false_2 by lia.
  rewrite Nat.mod_small by done.
  destruct (l !! r) as [w |] eqn:E.
  - split; intros; congruence.
  - apply lookup_ge_None in E. lia.
Qed.

(** Every element can be drawn. *)
Lemma random_choice_any l v :
  v ∈ l → ∃ r, r < length l ∧ random_choice r l = inr v.
Proof.
  intros (i & Hi)%list_elem_of_lookup_1.
  assert (i < length l) by (by eapply lookup_lt_Some).
  exists i. split; [done |]. by apply random_choice_lt.
Qed.

Lemma filter_iff_on (P1 P2 : nat → Prop)
    `{!∀ x, Decision (P1 x), !∀ x, Decision (P2 x)} (ns : list nat) :
  (∀ x, x ∈ ns → P1 x ↔ P2 x) → filter P1 ns = filter P2 ns.
Proof.
  induction ns as [| n ns IH]; intros Hiff; [done |].
  rewrite !filter_cons, IH by (intros; apply Hiff; by right).
  apply decide_ext, Hiff. by left.
Qed.

Lemma filter_lookup_seq v (pre l : list string) :
  length (filter (λ r, (pre ++ l)%list !! r = Some v) (List.seq (length pre) (length l)))
  = length (filter (λ x, x = v) l).
Proof.
  revert pre. induction l as [| x l IH]; intros pre; [done |].
  cbn [length List.seq]. rewrite !filter_cons.
  replace ((pre ++ x :: l)%list !! length pre) with (Some x)
    by (by rewrite list_lookup_middle).
  specialize (IH (pre ++ [x])%list).
  rewrite length_app in IH. cbn [length] in IH.
  rewrite Nat.add_1_r, <- app_assoc in IH. cbn [app] in IH.
  destruct (decide (Some x = Some v)) as [[= ->] | Hne].
  - rewrite decide_True by done. cbn [length]. by rewrite IH.
  - rewrite decide_False by congruence. done.
Qed.

(** The weight of a value is the number of positions that hold it. *)
Lemma choice_weight_count v l :
  choice_weight v l = length (filter (λ x, x = v) l).
Proof.
  unfold choice_weight. rewrite <- (filter_lookup_seq v [] l). cbn [length app].
  f_equal. apply filter_iff_on. intros r [_ Hr]%elem_of_seq.
  apply random_choice_lt. lia.
Qed.

Lemma count_NoDup v l :
  NoDup l → length (filter (λ x, x = v) l) = if decide (v ∈ l) then 1 else 0.
Proof.
  induction 1 as [| x l Hx Hnd IH]; [done |].
  rewrite filter_cons. destruct (decide (x = v)) as [-> | Hne].
  - cbn [length]. rewrite IH. rewrite decide_False by done.
    rewrite decide_True by left. done.
  - rewrite IH. destruct (decide (v ∈ l)) as [Hin | Hin].
    + rewrite decide_True by (by right). done.
    + rewrite decide_False; [done |]. rewrite elem_of_cons. intros [? | ?]; [congruence | done].
Qed.
End random_choice_facts.

(** ** The selector *)
Section selector_facts.
Implicit Types (a : selector_args) (choice : list string → exn + string).

(** Some pool value is unused exactly when the difference is not empty. *)
Lemma unused_iff a :
  (∃ v, v ∈ values a ∧ v ∉ used_values a)
  ↔ list_to_set (values a) ∖ used_values a ≠ ∅.
Proof.
  split.
  - intros (v & Hv & Hu) He.
    assert (v ∈ (list_to_set (values a) ∖ used_values a : gset string)) as Hin
      by (apply elem_of_difference; split; [by apply elem_of_list_to_set | done]).
    rewrite He in Hin. by apply not_elem_of_empty in Hin.
  - intros (v & Hv)%set_choose_L. apply elem_of_difference in Hv as [Hv Hu].
    exists v. split; [by apply elem_of_list_to_set in Hv | done].
Qed.

Lemma exhausted_iff a :
  (∀ v, v ∈ values a → v ∈ used_values a)
  ↔ list_to_set (values a) ∖ used_values a = ∅.
Proof.
  split.
  - intros Hall. apply set_eq. intros v. rewrite elem_of_difference, elem_of_list_to_set.
    split; [intros [Hv Hu]; by specialize (Hall v Hv) | by intros ?%not_elem_of_empty].
  - intros He v Hv. destruct (decide (v ∈ used_values a)) as [| Hu]; [done |].
    exfalso. apply (proj1 (unused_iff a)); [by exists v | done].
Qed.

Lemma available_unused a :
  list_to_set (values a) ∖ used_values a ≠ ∅ →
  utils.available a = (list_to_set (values a) ∖ used_values a, a).
Proof. intros Hne. unfold utils.available. by rewrite bool_decide_eq_false_2. Qed.

Lemma available_exhausted a :
  list_to_set (values a) ∖ used_values a = ∅ →
  utils.available a
  = (list_to_set (values a), {| values := values a; used_values := ∅ |}).
Proof. intros He. unfold utils.available. by rewrite bool_decide_eq_true_2. Qed.

Lemma list_to_set_nonempty (l : list string) :
  l ≠ [] → (list_to_set l : gset string) ≠ ∅.
Proof.
  destruct l as [| x l]; [done |]. intros _ He.
  assert (x ∈ (list_to_set (x :: l) : gset string)) as Hin
    by (apply elem_of_list_to_set; left).
  rewrite He in Hin. by apply not_elem_of_empty in Hin.
Qed.

Lemma available_nonempty a : values a ≠ [] → (utils.available a).1 ≠ ∅.
Proof.
  intros Hv. destruct (decide (list_to_set (values a) ∖ used_values a = ∅)) as [He | Hne].
  - rewrite available_exhausted by done. by apply list_to_set_nonempty.
  - by rewrite available_unused.
Qed.

Lemma available_elem_of a v : v ∈ (utils.available a).1 → v ∈ values a.
Proof.
  destruct (decide (list_to_set (values a) ∖ used_values a = ∅)) as [He | Hne].
  - rewrite available_exhausted by done. cbn. by rewrite elem_of_list_to_set.
  - rewrite available_unused by done. cbn.
    rewrite elem_of_difference, elem_of_list_to_set. tauto.
Qed.

Lemma elements_nonempty (X : gset string) : X ≠ ∅ → elements X ≠ [].
Proof. intros HX He. by apply elements_empty_iff, leibniz_equiv in He. Qed.

Lemma get_unique_value_unfold choice a :
  utils.get_unique_value choice a
  = (choice (elements (utils.available a).1), (utils.available a).2).
Proof. unfold utils.get_unique_value. by destruct (utils.available a). Qed.

Lemma _available_eq a : degree_mixin._available a = utils.available a.
Proof. reflexivity. Qed.

Lemma _get_unique_value_eq choice self a :
  degree_mixin._get_unique_value choice self a = utils.get_unique_value choice a.
Proof. reflexivity. Qed.
End selector_facts.

(** ** The Degree mixin *)
Section degree_facts.
Import degree_mixin.
Implicit Types (self : Degree) (dt : option string) (init : bool).
Implicit Types (choice : list string → exn + string).

Lemma accepted_check dt :
  accepted dt ↔ truthy dt && not_in dt degree_types = false.
Proof.
  unfold accepted. destruct dt as [s |]; cbn.
  - rewrite andb_false_iff, !bool_decide_eq_false. split.
    + intros H. destruct (H s eq_refl) as [-> | Hin]; [left | right]; tauto.
    + intros [Hs | Hin] ? [= <-].
      * left. by destruct (decide (s = "")).
      * right. by destruct (decide (s ∈ degree_types)).
  - split; [done | by intros _ s [=]].
Qed.

Lemma degree_rejected choice self s init :
  s ≠ "" → s ∉ degree_types →
  degree choice self (Some s) init = (inl (ValueError InvalidDegreeType), self).
Proof.
  intros Hs Hin. unfold degree. cbn [truthy not_in].
  by rewrite !bool_decide_eq_true_2.
Qed.

Lemma degree_accepted choice self dt init :
  accepted dt →
  degree choice self dt init
  = let a := {| values := degrees_of self dt init;
                used_values := _used_degrees self |} in
    match choice (elements (utils.available a).1) with
    | inl e => (inl e, with_used self (used_values (utils.available a).2))
    | inr d => (inr d, with_used self ({[d]} ∪ used_values (utils.available a).2))
    end.
Proof.
  intros Hok%accepted_check. unfold degree. rewrite Hok.
  rewrite _get_unique_value_eq, get_unique_value_unfold. cbn zeta.
  by destruct (choice _).
Qed.

(** A call with an unused candidate returns one and records it. *)
Lemma degree_unused r self dt init :
  accepted dt →
  list_to_set (degrees_of self dt init) ∖ _used_degrees self ≠ ∅ →
  ∃ d, d ∈ degrees_of self dt init ∧ (d ∉ _used_degrees self) ∧
       degree (random_choice r) self dt init
       = (inr d, with_used self ({[d]} ∪ _used_degrees self)).
Proof.
  intros Hok Hne. rewrite degree_accepted by done. cbn zeta.
  rewrite available_unused by done. cbn [fst snd used_values values].
  destruct (random_choice_elem_of r
    (elements (list_to_set (degrees_of self dt init) ∖ _used_degrees self)))
    as (d & -> & Hd); [by apply elements_nonempty |].
  apply elem_of_elements, elem_of_difference in Hd as [Hd Hu].
  apply elem_of_list_to_set in Hd. by exists d.
Qed.

(** A call with every candidate used starts over from the whole pool. *)
Lemma degree_exhausted choice self dt init :
  accepted dt →
  list_to_set (degrees_of self dt init) ∖ _used_degrees self = ∅ →
  degree choice self dt init
  = match choice (elements (list_to_set (degrees_of self dt init) : gset string)) with
    | inl e => (inl e, with_used self ∅)
    | inr d => (inr d, with_used self {[d]})
    end.
Proof.
  intros Hok He. rewrite degree_accepted by done. cbn zeta.
  rewrite available_exhausted by done. cbn [fst snd used_values values].
  destruct (choice _); [done |]. by rewrite union_empty_r_L.
Qed.

(** On an empty list the outcome is that of the choice from nothing. *)
Lemma degree_empty_pool choice self dt init :
  accepted dt →
  degrees_of self dt init = [] →
  degree choice self dt init
  = match choice [] with
    | inl e => (inl e, with_used self ∅)
    | inr d => (inr d, with_used self {[d]})
    end.
Proof.
  intros Hok Hnil. rewrite degree_exhausted; [| done |].
  - by rewrite Hnil.
  - rewrite Hnil. apply difference_disjoint_L, disjoint_empty_l.
Qed.

Lemma accepted_degree_types s : s ∈ degree_types → accepted (Some s).
Proof. intros Hs s' [= <-]. by right. Qed.

Lemma degrees_of_with_used self u dt init :
  degrees_of (with_used self u) dt init = degrees_of self dt init.
Proof. reflexivity. Qed.

Lemma with_used_with_used self u u' : with_used (with_used self u) u' = with_used self u'.
Proof. reflexivity. Qed.

(** As many calls as there are unused candidates: each returns a new
    one, and all are recorded. *)
Lemma degree_calls_unused rs self dt init :
  accepted dt →
  size (list_to_set (degrees_of self dt init) ∖ _used_degrees self) = length rs →
  ∃ ds, degree_calls rs self dt init
        = (inr ds, with_used self (list_to_set ds ∪ _used_degrees self)) ∧
        length ds = length rs ∧ NoDup ds ∧
        ∀ d, d ∈ ds → d ∈ degrees_of self dt init ∧ d ∉ _used_degrees self.
Proof.
  intros Hok. revert self. induction rs as [| r rs IH]; intros self Hsize.
  - exists []. cbn [degree_calls list_to_set foldr]. rewrite union_empty_l_L.
    split; [by destruct self |]. split; [done |]. split; [constructor |].
    by intros d ?%elem_of_nil.
  - cbn [length] in Hsize.
    destruct (degree_unused r self dt init Hok) as (d & Hd & Hu & Hcall).
    { intros He. rewrite He, size_empty in Hsize. lia. }
    cbn [degree_calls]. rewrite Hcall.
    destruct (IH (with_used self ({[d]} ∪ _used_degrees self)))
      as (ds & Hrun & Hlen & Hnd & Hds).
    { cbn [with_used _used_degrees]. rewrite degrees_of_with_used.
      replace (list_to_set (degrees_of self dt init) ∖ ({[d]} ∪ _used_degrees self))
        with ((list_to_set (degrees_of self dt init) ∖ _used_degrees self) ∖ {[d]}
              : gset string) by set_solver.
      rewrite size_difference, size_singleton, Hsize; [lia |].
      apply singleton_subseteq_l, elem_of_difference.
      split; [by apply elem_of_list_to_set | done]. }
    rewrite Hrun. exists (d :: ds).
    cbn [with_used _used_degrees degree_provider] in *.
    split; [| split; [cbn; lia | split]].
    + unfold with_used. cbn. do 2 f_equal. set_solver.
    + constructor; [| done]. intros Hin. apply Hds in Hin as [_ Hin].
      apply Hin. set_solver.
    + intros d' [-> | Hin]%elem_of_cons; [done |].
      apply Hds in Hin as [? Hin]. split; [done |]. set_solver.
Qed.
End degree_facts.

(** * The claims *)

(** ** The selector alone *)

(** C3. Pool membership of the result. On a non-empty pool the selector
    returns, whatever the used-set holds (strings outside the pool as
    well), a member of the pool; and a call of [degree] that returns,
    returns a member of the list it got from the provider. *)
Theorem result_in_pool (r : nat) :
  (∀ a, values a ≠ [] →
        ∃ v a', utils.get_unique_value (random_choice r) a = (inr v, a') ∧
                v ∈ values a) ∧
  (∀ self degree_type initial d self',
     degree_mixin.degree (random_choice r) self degree_type initial = (inr d, self') →
     d ∈ degree_mixin.degrees_of self degree_type initial).
Proof.
  split.
  - intros a Ha. rewrite get_unique_value_unfold.
    destruct (random_choice_elem_of r (elements (utils.available a).1))
      as (v & Hv & Hin).
    { by apply elements_nonempty, available_nonempty. }
    exists v, (utils.available a).2. rewrite Hv. split; [done |].
    by apply available_elem_of, elem_of_elements.
  - intros self dt init d self' Hcall.
    destruct (degree_mixin.truthy dt
              && degree_mixin.not_in dt degree_mixin.degree_types) eqn:Hchk.
    + unfold degree_mixin.degree in Hcall. by rewrite Hchk in Hcall.
    + apply accepted_check in Hchk.
      rewrite degree_accepted in Hcall by done. cbn zeta in Hcall.
      destruct (random_choice r _) as [e | d'] eqn:Hr; [done |].
      injection Hcall as <- _.
      apply random_choice_inr, elem_of_elements, available_elem_of in Hr. done.
Qed.

(** The selector on a used-set that holds a stranger and one pool value. *)
Lemma result_in_pool_witness :
  ∃ v a', utils.get_unique_value (random_choice 4)
            {| values := ["B.Sc."; "M.Sc."]; used_values := {["M.Sc."; "LL.B."]} |}
          = (inr v, a') ∧ v ∈ ["B.Sc."; "M.Sc."].
Proof.
  apply (proj1 (result_in_pool 4)
           {| values := ["B.Sc."; "M.Sc."]; used_values := {["M.Sc."; "LL.B."]} |}).
  simpl. discriminate.
Defined.

(** C9. Totality on non-empty pools. On a non-empty pool the list handed
    to [random.choice] is not empty, for every used-set, so the selector
    returns a value and the [IndexError] of an empty choice cannot occur. *)
Theorem selector_total (r : nat) (a : selector_args) :
  values a ≠ [] →
  elements (utils.available a).1 ≠ [] ∧
  (∀ choice, (utils.get_unique_value choice a).1
             = choice (elements (utils.available a).1)) ∧
  ∃ v, (utils.get_unique_value (random_choice r) a).1 = inr v.
Proof.
  intros Ha.
  assert (elements (utils.available a).1 ≠ []) as Hne
    by (by apply elements_nonempty, available_nonempty).
  split; [done |]. split.
  - intros choice. by rewrite get_unique_value_unfold.
  - rewrite get_unique_value_unfold. cbn [fst].
    destruct (random_choice_elem_of r _ Hne) as (v & Hv & _). by exists v.
Qed.

(** A used-set that is a strict superset of the pool. *)
Lemma selector_total_witness :
  elements (utils.available
    {| values := ["B.Sc."]; used_values := {["B.Sc."; "M.Sc."]} |}).1 ≠ [] ∧
  (∀ choice, (utils.get_unique_value choice
                {| values := ["B.Sc."]; used_values := {["B.Sc."; "M.Sc."]} |}).1
             = choice (elements (utils.available
                {| values := ["B.Sc."]; used_values := {["B.Sc."; "M.Sc."]} |}).1)) ∧
  ∃ v, (utils.get_unique_value (random_choice 7)
          {| values := ["B.Sc."]; used_values := {["B.Sc."; "M.Sc."]} |}).1 = inr v.
Proof.
  apply (selector_total 7
           {| values := ["B.Sc."]; used_values := {["B.Sc."; "M.Sc."]} |}).
  simpl. discriminate.
Defined.

(** C6. Frame property of the selector. The pool is left as it was; the
    used-set is left as it was or is emptied, and nothing else; it is left
    as it was whenever some pool value is unused, and emptied when none
    is. *)
Theorem selector_frame (choice : list string → exn + string) (a : selector_args) :
  values (utils.get_unique_value choice a).2 = values a ∧
  ((utils.get_unique_value choice a).2 = a ∨
   (utils.get_unique_value choice a).2 = {| values := values a; used_values := ∅ |}) ∧
  ((∃ v, v ∈ values a ∧ v ∉ used_values a) →
   (utils.get_unique_value choice a).2 = a) ∧
  ((∀ v, v ∈ values a → v ∈ used_values a) →
   (utils.get_unique_value choice a).2 = {| values := values a; used_values := ∅ |}).
Proof.
  rewrite get_unique_value_unfold. cbn [snd].
  destruct (decide (list_to_set (values a) ∖ used_values a = ∅)) as [He | Hne].
  - rewrite available_exhausted by done. cbn [snd values].
    split; [done |]. split; [by right |]. split; [| done].
    intros Hv%unused_iff. done.
  - rewrite available_unused by done. cbn [snd].
    split; [done |]. split; [by left |]. split; [done |].
    intros Hall%exhausted_iff. done.
Qed.

(** C10. The two copies of the selector are the same function: the same
    result and the same final objects for every choice function, pool and
    used-set, whatever the [Degree] object is. *)
Theorem selector_copies_agree (choice : list string → exn + string)
    (self : degree_mixin.Degree) (a : selector_args) :
  degree_mixin._get_unique_value choice self a = utils.get_unique_value choice a.
Proof. reflexivity. Qed.

(** C7. Duplicate-invariance of the selection. Two pools with the same
    entries, in any order and any number of copies, give the selector the
    same set of candidates and leave the same used-set; and in the list
    handed to [random.choice] every candidate has weight one, so that a
    uniform draw is uniform over the distinct values and the weight of a
    value is the same from either pool. *)
Theorem duplicates_do_not_weigh (used : gset string) (p p' : list string) :
  (∀ x, x ∈ p ↔ x ∈ p') →
  (utils.available (SelectorArgs p used)).1
  = (utils.available (SelectorArgs p' used)).1 ∧
  used_values (utils.available (SelectorArgs p used)).2
  = used_values (utils.available (SelectorArgs p' used)).2 ∧
  (∀ v, choice_weight v (elements (utils.available (SelectorArgs p used)).1)
        = if decide (v ∈ (utils.available (SelectorArgs p used)).1) then 1 else 0) ∧
  (∀ v, choice_weight v (elements (utils.available (SelectorArgs p' used)).1)
        = choice_weight v (elements (utils.available (SelectorArgs p used)).1)).
Proof.
  intros Hsame.
  assert ((list_to_set p : gset string) = list_to_set p') as Hset.
  { apply set_eq. intros x. by rewrite !elem_of_list_to_set. }
  assert (utils.available (SelectorArgs p used)
          = ((utils.available (SelectorArgs p' used)).1,
             SelectorArgs p (used_values (utils.available (SelectorArgs p' used)).2)))
    as Hav.
  { unfold utils.available. cbn [values used_values]. rewrite Hset.
    by destruct (bool_decide _). }
  rewrite Hav. cbn [fst snd used_values].
  split; [done |]. split; [done |]. split; [| done].
  intros v. rewrite choice_weight_count, count_NoDup by apply NoDup_elements.
  apply decide_ext, elem_of_elements.
Qed.

(** ["A"] twice in the pool weighs what it weighs once. *)
Lemma duplicates_do_not_weigh_witness :
  choice_weight "A" (elements (utils.available (SelectorArgs ["B"; "A"; "A"] ∅)).1)
  = choice_weight "A" (elements (utils.available (SelectorArgs ["A"; "B"] ∅)).1).
Proof.
  apply (duplicates_do_not_weigh ∅ ["A"; "B"] ["B"; "A"; "A"]).
  intros x. rewrite !elem_of_cons. tauto.
Defined.

(** ** Loading *)
Section validation_facts.
Context {V : Type}.
Implicit Types (entry : gmap string V) (data : list (gmap string V)).
Implicit Types (required_keys : list string).

Lemma validate_entry_ok entry required_keys :
  dom entry = list_to_set required_keys →
  utils.validate_entry entry required_keys = inr ().
Proof.
  intros Hdom. unfold utils.validate_entry. rewrite Hdom, difference_diag_L.
  by rewrite !bool_decide_eq_false_2 by (intros Hne; by apply Hne).
Qed.

Lemma validate_entry_error entry required_keys :
  dom entry ≠ list_to_set required_keys →
  ∃ w, utils.validate_entry entry required_keys = inl (ValueError w).
Proof.
  intros Hdom. unfold utils.validate_entry.
  destruct (bool_decide (list_to_set required_keys ∖ dom entry ≠ ∅)) eqn:Hm;
    [by eexists |].
  destruct (bool_decide (dom entry ∖ list_to_set required_keys ≠ ∅)) eqn:Hi;
    [by eexists |].
  apply bool_decide_eq_false in Hm, Hi. exfalso. apply Hdom.
  destruct (decide (list_to_set required_keys ∖ dom entry = ∅)) as [Hm' | ?];
    [| by destruct Hm].
  destruct (decide (dom entry ∖ list_to_set required_keys = ∅)) as [Hi' | ?];
    [| by destruct Hi].
  apply set_eq. intros k. split; intros Hk.
  - destruct (decide (k ∈ (list_to_set required_keys : gset string))) as [| Hno];
      [done |].
    assert (k ∈ dom entry ∖ list_to_set required_keys) as Hin
      by (by apply elem_of_difference).
    rewrite Hi' in Hin. by apply not_elem_of_empty in Hin.
  - destruct (decide (k ∈ dom entry)) as [| Hno]; [done |].
    assert (k ∈ (list_to_set required_keys ∖ dom entry : gset string)) as Hin
      by (by apply elem_of_difference).
    rewrite Hm' in Hin. by apply not_elem_of_empty in Hin.
Qed.

Lemma validate_well_keyed data required_keys :
  well_keyed required_keys data →
  utils.validate_json_structure data required_keys = inr ().
Proof.
  induction 1 as [| entry data Hentry _ IH]; [done |].
  cbn [utils.validate_json_structure]. by rewrite validate_entry_ok.
Qed.

Lemma validate_ill_keyed data required_keys :
  ill_keyed required_keys data →
  ∃ w, utils.validate_json_structure data required_keys = inl (ValueError w).
Proof.
  induction 1 as [entry data Hentry | entry data _ IH];
    cbn [utils.validate_json_structure].
  - destruct (validate_entry_error _ _ Hentry) as [w ->]. by exists w.
  - destruct (decide (dom entry = list_to_set required_keys)) as [Hdom | Hdom].
    + by rewrite validate_entry_ok.
    + destruct (validate_entry_error _ _ Hdom) as [w ->]. by exists w.
Qed.

(** A list is one or the other. *)
Lemma well_or_ill_keyed data required_keys :
  well_keyed required_keys data ∨ ill_keyed required_keys data.
Proof.
  unfold well_keyed, ill_keyed.
  destruct (decide (Forall (λ entry, dom entry = list_to_set required_keys) data))
    as [| Hno]; [by left | right].
  by apply not_Forall_Exists in Hno; [| apply _].
Qed.
End validation_facts.

(** C8. Structural validation. [validate_json_structure] raises a
    [ValueError] exactly when some entry's key set differs from the
    required one, and returns exactly when every entry's key set equals it
    (the empty list included); and [load_json], once the file is opened
    and decoded, raises that error in the first case and returns the
    decoded list as it is in the second. *)
Theorem structural_validation {V : Type} (data : list (gmap string V))
    (required_keys : list string) :
  (utils.validate_json_structure data required_keys = inr ()
   ↔ well_keyed required_keys data) ∧
  ((∃ w, utils.validate_json_structure data required_keys = inl (ValueError w))
   ↔ ill_keyed required_keys data) ∧
  (∀ open_file json_load file_path file,
     open_file file_path = Some file → json_load file = Some data →
     (utils.load_json open_file json_load file_path required_keys = inr data
      ↔ well_keyed required_keys data) ∧
     ((∃ w, utils.load_json open_file json_load file_path required_keys
            = inl (ValueError w))
      ↔ ill_keyed required_keys data)).
Proof.
  assert (utils.validate_json_structure data required_keys = inr ()
          ↔ well_keyed required_keys data) as Hwell.
  { split; [| apply validate_well_keyed].
    intros Hret. destruct (well_or_ill_keyed data required_keys) as [| Hill]; [done |].
    destruct (validate_ill_keyed _ _ Hill) as [w Hw]. congruence. }
  assert ((∃ w, utils.validate_json_structure data required_keys = inl (ValueError w))
          ↔ ill_keyed required_keys data) as Hill.
  { split; [| apply validate_ill_keyed].
    intros [w Hw]. destruct (well_or_ill_keyed data required_keys) as [Hok |]; [| done].
    apply validate_well_keyed in Hok. congruence. }
  split; [done |]. split; [done |].
  intros open_file json_load file_path file Hopen Hload.
  unfold utils.load_json. rewrite Hopen, Hload.
  rewrite <- Hwell, <- Hill.
  destruct (utils.validate_json_structure data required_keys) as [e | []].
  - split; [split; [done | intros [=]] |].
    split; intros [w Hw]; exists w; congruence.
  - split; [done |]. split; intros [w Hw]; done.
Qed.

(** ** Runs of [degree] on a fresh object *)
Section run_facts.
Import degree_mixin.
Implicit Types (provider : DegreeProvider) (dt : option string) (init : bool).

(** As many calls as the pool has values, none of them twice in it:
    the calls return the pool in some order and leave it all used. *)
Lemma degree_calls_whole_pool provider dt init rs :
  accepted dt →
  NoDup (degrees_of (__init__ provider) dt init) →
  length rs = length (degrees_of (__init__ provider) dt init) →
  ∃ ds, degree_calls rs (__init__ provider) dt init
        = (inr ds, with_used (__init__ provider)
                     (list_to_set (degrees_of (__init__ provider) dt init))) ∧
        ds ≡ₚ degrees_of (__init__ provider) dt init.
Proof.
  intros Hok Hnd Hlen.
  destruct (degree_calls_unused rs (__init__ provider) dt init Hok)
    as (ds & Hrun & Hds & Hnd' & Hin).
  { cbn [__init__ _used_degrees]. rewrite difference_empty_L.
    by rewrite size_list_to_set. }
  assert (ds ≡ₚ degrees_of (__init__ provider) dt init) as Hperm.
  { apply submseteq_length_Permutation; [| lia].
    apply NoDup_submseteq; [done |]. intros d Hd. by apply Hin. }
  exists ds. split; [| done].
  rewrite Hrun. cbn [__init__ _used_degrees]. rewrite union_empty_r_L.
  do 2 f_equal. apply set_eq. intros d. by rewrite !elem_of_list_to_set, Hperm.
Qed.
End run_facts.

(** C1. No repeat until exhaustion. On an object whose used-set is still
    empty, for a pool of N >= 2 distinct strings, N consecutive calls of
    [degree] all return, and return N pairwise distinct values: the pool
    in some order. *)
Theorem no_repeat_until_exhaustion (provider : degree_mixin.DegreeProvider)
    (degree_type : option string) (initial : bool) (rs : list nat) :
  accepted degree_type →
  NoDup (degree_mixin.degrees_of (degree_mixin.__init__ provider) degree_type initial) →
  (2 ≤ length (degree_mixin.degrees_of (degree_mixin.__init__ provider)
                 degree_type initial))%nat →
  length rs
  = length (degree_mixin.degrees_of (degree_mixin.__init__ provider) degree_type initial) →
  ∃ ds self',
    degree_mixin.degree_calls rs (degree_mixin.__init__ provider) degree_type initial
    = (inr ds, self') ∧
    length ds = length rs ∧
    NoDup ds ∧
    ds ≡ₚ degree_mixin.degrees_of (degree_mixin.__init__ provider) degree_type initial.
Proof.
  intros Hok Hnd _ Hlen.
  destruct (degree_calls_whole_pool provider degree_type initial rs Hok Hnd Hlen)
    as (ds & Hrun & Hperm).
  exists ds, (with_used (degree_mixin.__init__ provider)
                (list_to_set (degree_mixin.degrees_of
                   (degree_mixin.__init__ provider) degree_type initial))).
  split; [done |]. split; [by rewrite Hperm |]. split; [by rewrite Hperm | done].
Qed.

(** Two draws from the two initials of the sample provider. *)
Lemma no_repeat_until_exhaustion_witness :
  ∃ ds self',
    degree_mixin.degree_calls [5; 8] (degree_mixin.__init__ sample_provider)
      (Some "masters") true
    = (inr ds, self') ∧
    length ds = 2 ∧ NoDup ds ∧ ds ≡ₚ ["B.Sc."; "M.Sc."].
Proof.
  apply (no_repeat_until_exhaustion sample_provider (Some "masters") true [5; 8]).
  - intros s [= <-]. right. vm_compute. do 1 right. left.
  - apply (bool_decide_unpack _). vm_compute. exact I.
  - vm_compute. lia.
  - reflexivity.
Defined.

(** C2. Reset on exhaustion. When every value of a non-empty pool is in
    the used-set, the selector empties the used-set and chooses from the
    whole pool. So after N calls of [degree] on a pool of N distinct
    values, the next call returns a pool value whatever the draw, can
    return each of them, the one returned last among them, and leaves a
    used-set whose only member is the value it returned. *)
Theorem reset_on_exhaustion :
  (∀ choice a,
     values a ≠ [] → (∀ v, v ∈ values a → v ∈ used_values a) →
     utils.get_unique_value choice a
     = (choice (elements (list_to_set (values a) : gset string)),
        {| values := values a; used_values := ∅ |})) ∧
  (∀ provider degree_type initial rs,
     accepted degree_type →
     NoDup (degree_mixin.degrees_of (degree_mixin.__init__ provider) degree_type initial) →
     degree_mixin.degrees_of (degree_mixin.__init__ provider) degree_type initial ≠ [] →
     length rs
     = length (degree_mixin.degrees_of (degree_mixin.__init__ provider)
                 degree_type initial) →
     ∃ ds self_N,
       degree_mixin.degree_calls rs (degree_mixin.__init__ provider) degree_type initial
       = (inr ds, self_N) ∧
       (∀ r, ∃ d, d ∈ degree_mixin.degrees_of self_N degree_type initial ∧
                  degree_mixin.degree (random_choice r) self_N degree_type initial
                  = (inr d, with_used self_N {[d]})) ∧
       (∀ d, d ∈ degree_mixin.degrees_of self_N degree_type initial →
             ∃ r, degree_mixin.degree (random_choice r) self_N degree_type initial
                  = (inr d, with_used self_N {[d]})) ∧
       (∀ d, last ds = Some d →
             ∃ r, degree_mixin.degree (random_choice r) self_N degree_type initial
                  = (inr d, with_used self_N {[d]})) ∧
       (∀ d, size (degree_mixin._used_degrees (with_used self_N {[d]})) = 1)).
Proof.
  split.
  - intros choice a _ Hall%exhausted_iff.
    by rewrite get_unique_value_unfold, available_exhausted.
  - intros provider dt init rs Hok Hnd Hne Hlen.
    destruct (degree_calls_whole_pool provider dt init rs Hok Hnd Hlen)
      as (ds & Hrun & Hperm).
    set (pool := degree_mixin.degrees_of (degree_mixin.__init__ provider) dt init) in *.
    set (self_N := with_used (degree_mixin.__init__ provider) (list_to_set pool)) in *.
    assert (∀ choice,
      degree_mixin.degree choice self_N dt init
      = match choice (elements (list_to_set pool : gset string)) with
        | inl e => (inl e, with_used self_N ∅)
        | inr d => (inr d, with_used self_N {[d]})
        end) as Hcall.
    { intros choice. apply degree_exhausted; [done |].
      subst self_N. rewrite degrees_of_with_used. cbn [with_used degree_mixin._used_degrees].
      fold pool. apply difference_diag_L. }
    assert (∀ d, d ∈ pool →
      ∃ r, degree_mixin.degree (random_choice r) self_N dt init
           = (inr d, with_used self_N {[d]})) as Hany.
    { intros d Hd.
      destruct (random_choice_any (elements (list_to_set pool : gset string)) d)
        as (r & _ & Hr).
      { by apply elem_of_elements, elem_of_list_to_set. }
      exists r. by rewrite Hcall, Hr. }
    exists ds, self_N. split; [done |]. split; [| split; [| split]].
    + intros r. rewrite Hcall.
      destruct (random_choice_elem_of r (elements (list_to_set pool : gset string)))
        as (d & -> & Hd).
      { by apply elements_nonempty, list_to_set_nonempty. }
      exists d. split; [| done].
      by apply elem_of_elements, elem_of_list_to_set in Hd.
    + intros d Hd. by apply Hany.
    + intros d Hlast. apply Hany. rewrite <- Hperm.
      apply last_Some in Hlast as [ds' ->]. apply elem_of_app. right. by left.
    + intros d. cbn [with_used degree_mixin._used_degrees]. apply size_singleton.
Qed.

(** The selector on a pool of two values, both used; and the third call
    on the two initials of the sample provider. *)
Lemma reset_on_exhaustion_witness :
  utils.get_unique_value (random_choice 3)
    {| values := ["A"; "B"]; used_values := {["A"; "B"]} |}
  = (random_choice 3 (elements (list_to_set ["A"; "B"] : gset string)),
     {| values := ["A"; "B"]; used_values := ∅ |}) ∧
  ∃ ds self_N,
    degree_mixin.degree_calls [5; 8] (degree_mixin.__init__ sample_provider) None true
    = (inr ds, self_N) ∧
    (∀ r, ∃ d, d ∈ degree_mixin.degrees_of self_N None true ∧
               degree_mixin.degree (random_choice r) self_N None true
               = (inr d, with_used self_N {[d]})) ∧
    (∀ d, d ∈ degree_mixin.degrees_of self_N None true →
          ∃ r, degree_mixin.degree (random_choice r) self_N None true
               = (inr d, with_used self_N {[d]})) ∧
    (∀ d, last ds = Some d →
          ∃ r, degree_mixin.degree (random_choice r) self_N None true
               = (inr d, with_used self_N {[d]})) ∧
    (∀ d, size (degree_mixin._used_degrees (with_used self_N {[d]})) = 1).
Proof.
  split.
  - apply (proj1 reset_on_exhaustion (random_choice 3)
             {| values := ["A"; "B"]; used_values := {["A"; "B"]} |}).
    + simpl. discriminate.
    + intros v. simpl.
      rewrite !elem_of_cons, elem_of_nil, elem_of_union, !elem_of_singleton. tauto.
  - apply (proj2 reset_on_exhaustion sample_provider None true [5; 8]).
    + intros s. discriminate.
    + apply (bool_decide_unpack _). vm_compute. exact I.
    + vm_compute. discriminate.
    + reflexivity.
Defined.

(** ** Errors of [degree] *)

(** C4, as the code has it. When the provider's list is empty and the
    filter passes the check, [degree] does call the selector: the used-set
    is emptied, and the error is the [IndexError] of [random.choice] on
    the empty list of candidates. No value is returned. *)
Theorem empty_pool_raises_in_selector (r : nat) (self : degree_mixin.Degree)
    (degree_type : option string) (initial : bool) :
  accepted degree_type →
  degree_mixin.degrees_of self degree_type initial = [] →
  degree_mixin.degree (random_choice r) self degree_type initial
  = (inl IndexError, with_used self ∅).
Proof.
  intros Hok Hnil. by rewrite degree_empty_pool.
Qed.

(** The sample provider has no doctorate. *)
Lemma empty_pool_raises_in_selector_witness :
  degree_mixin.degree (random_choice 2)
    {| degree_mixin.degree_provider := sample_provider;
       degree_mixin._used_degrees := {["B.Sc."]} |} (Some "doctorate") true
  = (inl IndexError,
     with_used {| degree_mixin.degree_provider := sample_provider;
                  degree_mixin._used_degrees := {["B.Sc."]} |} ∅).
Proof.
  apply (empty_pool_raises_in_selector 2
           {| degree_mixin.degree_provider := sample_provider;
              degree_mixin._used_degrees := {["B.Sc."]} |} (Some "doctorate") true).
  - intros s [= <-]. right. vm_compute. do 2 right. left.
  - reflexivity.
Defined.

(** C4, as the specification has it: an error raised before the selector is
    called, that is, with the used-set as it was. It fails on a used-set
    that is not empty: the selector has emptied it when the error comes. *)
Lemma empty_pool_error_not_before_selector :
  ¬ (∀ choice self degree_type initial,
       degree_mixin.degrees_of self degree_type initial = [] →
       ∃ e, degree_mixin.degree choice self degree_type initial = (inl e, self)).
Proof.
  intros Hclaim.
  destruct (Hclaim (random_choice 0)
              {| degree_mixin.degree_provider := sample_provider;
                 degree_mixin._used_degrees := {["B.Sc."]} |}
              (Some "doctorate") true eq_refl) as [e He].
  rewrite degree_empty_pool in He;
    [| apply accepted_degree_types; do 2 right; left | done].
  rewrite random_choice_nil in He.
  apply (f_equal (λ out, degree_mixin._used_degrees out.2)) in He.
  cbn [snd with_used degree_mixin._used_degrees] in He.
  assert ("B.Sc." ∈ (∅ : gset string)) as Hin
    by (rewrite He; by apply elem_of_singleton).
  by apply not_elem_of_empty in Hin.
Qed.

Section filter_facts.
Import degree_mixin.

(** What the check of line 51 turns away. *)
Lemma not_accepted (dt : option string) :
  truthy dt && not_in dt degree_types = true →
  ∃ s, dt = Some s ∧ s ≠ "" ∧ s ∉ degree_types.
Proof.
  destruct dt as [s |]; [| done]. cbn [truthy not_in].
  intros [Hs Hin]%andb_true_iff.
  apply bool_decide_eq_true in Hs, Hin. by exists s.
Qed.
End filter_facts.

(** C5, as the code has it. [degree] raises a [ValueError] exactly when
    [degree_type] is a string that is not empty and not one of the three
    recognized types; it is then raised whatever the choice function is,
    which is not called, and the object is left as it was. [None] and the
    empty string stand for no filter and are not checked. *)
Theorem filter_validation (r : nat) (self : degree_mixin.Degree)
    (degree_type : option string) (initial : bool) :
  ((∃ w, (degree_mixin.degree (random_choice r) self degree_type initial).1
         = inl (ValueError w))
   ↔ ∃ s, degree_type = Some s ∧ s ≠ "" ∧ s ∉ degree_mixin.degree_types) ∧
  (∀ choice s,
     s ≠ "" → s ∉ degree_mixin.degree_types →
     degree_mixin.degree choice self (Some s) initial
     = (inl (ValueError InvalidDegreeType), self)).
Proof.
  split; [| intros choice s; apply degree_rejected].
  split.
  - intros [w Hw].
    destruct (degree_mixin.truthy degree_type
              && degree_mixin.not_in degree_type degree_mixin.degree_types) eqn:Hchk;
      [by apply not_accepted |].
    apply accepted_check in Hchk.
    rewrite degree_accepted in Hw by done. cbn zeta in Hw.
    destruct (random_choice r _) as [e |] eqn:Hr; [| done].
    apply random_choice_inl in Hr as [-> _]. done.
  - intros (s & -> & Hs & Hin). exists InvalidDegreeType.
    by rewrite degree_rejected.
Qed.

(** C5, as the specification has it: every string outside the enumeration is
    turned away. The empty string is outside it and is let through. *)
Lemma empty_filter_not_rejected :
  ¬ (∀ choice self s initial,
       s ∉ degree_mixin.degree_types →
       ∃ w, (degree_mixin.degree choice self (Some s) initial).1
            = inl (ValueError w)).
Proof.
  intros Hclaim.
  destruct (Hclaim (random_choice 0) (degree_mixin.__init__ sample_provider) "" true)
    as [w Hw].
  - unfold degree_mixin.degree_types. rewrite !elem_of_cons, elem_of_nil.
    intros [| [| [|]]]; done.
  - vm_compute in Hw. discriminate.
Qed.

(** ** The code on sample inputs *)

(** The scenario of two values: the first two calls return both, the
    third starts over. *)
Example two_values_three_calls :
  degree_mixin.degree_calls [0; 0; 0] (degree_mixin.__init__ sample_provider) None true
  = (inr ["M.Sc."; "B.Sc."; "M.Sc."],
     with_used (degree_mixin.__init__ sample_provider) {["M.Sc."]}).
Proof. vm_compute. reflexivity. Qed.

Example empty_string_is_no_filter :
  (degree_mixin.degree (random_choice 1) (degree_mixin.__init__ sample_provider)
     (Some "") false).1
  = inr "Bachelor of Science".
Proof. vm_compute. reflexivity. Qed.

Example unknown_filter_is_rejected :
  degree_mixin.degree (random_choice 1) (degree_mixin.__init__ sample_provider)
    (Some "phd") false
  = (inl (ValueError InvalidDegreeType), degree_mixin.__init__ sample_provider).
Proof. vm_compute. reflexivity. Qed.

Example sample_names_are_valid :
  utils.validate_json_structure sample_names ["tribe"; "gender"; "name"] = inr ().
Proof. vm_compute. reflexivity. Qed.

Example missing_key_is_reported :
  utils.validate_json_structure sample_names ["tribe"; "gender"; "name"; "meaning"]
  = inl (ValueError (MissingKeys {["meaning"]})).
Proof. vm_compute. reflexivity. Qed.

Example extra_key_is_reported :
  utils.validate_json_structure sample_names ["tribe"; "name"]
  = inl (ValueError (InvalidKeys {["gender"]})).
Proof. vm_compute. reflexivity. Qed.

Example load_json_file_not_found :
  utils.load_json (V := string) (λ _, None) (λ _, None) "none.json" ["name"]
  = inl (FileNotFoundError "none.json").
Proof. reflexivity. Qed.

Example load_json_invalid_json :
  utils.load_json (V := string) (λ _, Some "Invalid JSON") (λ _, None)
    "invalid.json" ["name"]
  = inl (ValueError (JSONDecode "invalid.json")).
Proof. reflexivity. Qed.

Example load_json_empty_file :
  utils.load_json (V := string) (λ _, Some "[]") (λ _, Some []) "empty.json" ["name"]
  = inr [].
Proof. reflexivity. Qed.

(** * Further properties *)

(** ** The selector *)

(** X1. While some pool value is unused, the selector returns, whatever
    the draw, a pool value that is not in the used-set, and leaves both
    objects as they were; and every unused pool value is returned on some
    draw. *)
Theorem selector_returns_unused (a : selector_args) :
  (∃ v, v ∈ values a ∧ v ∉ used_values a) →
  (∀ r, ∃ v, utils.get_unique_value (random_choice r) a = (inr v, a) ∧
             v ∈ values a ∧ v ∉ used_values a) ∧
  (∀ v, v ∈ values a → v ∉ used_values a →
        ∃ r, utils.get_unique_value (random_choice r) a = (inr v, a)).
Proof.
  intros Hne%unused_iff.
  split.
  - intros r.
    destruct (random_choice_elem_of r
                (elements (list_to_set (values a) ∖ used_values a)))
      as (v & Hv & Hin); [by apply elements_nonempty |].
    apply elem_of_elements, elem_of_difference in Hin as [Hin Hu].
    apply elem_of_list_to_set in Hin.
    exists v. rewrite get_unique_value_unfold, available_unused by done.
    cbn [fst snd]. by rewrite Hv.
  - intros v Hin Hu.
    destruct (random_choice_any
                (elements (list_to_set (values a) ∖ used_values a)) v)
      as (r & _ & Hr).
    { apply elem_of_elements, elem_of_difference.
      split; [by apply elem_of_list_to_set | done]. }
    exists r. rewrite get_unique_value_unfold, available_unused by done.
    cbn [fst snd]. by rewrite Hr.
Qed.

(** Three values, one of them used, and a stranger in the used-set. *)
Lemma selector_returns_unused_witness :
  (∀ r, ∃ v,
     utils.get_unique_value (random_choice r)
       {| values := ["A"; "B"; "C"]; used_values := {["B"; "Z"]} |}
     = (inr v, {| values := ["A"; "B"; "C"]; used_values := {["B"; "Z"]} |}) ∧
     v ∈ ["A"; "B"; "C"] ∧ v ∉ ({["B"; "Z"]} : gset string)) ∧
  (∀ v, v ∈ ["A"; "B"; "C"] → v ∉ ({["B"; "Z"]} : gset string) →
        ∃ r, utils.get_unique_value (random_choice r)
               {| values := ["A"; "B"; "C"]; used_values := {["B"; "Z"]} |}
             = (inr v, {| values := ["A"; "B"; "C"]; used_values := {["B"; "Z"]} |})).
Proof.
  refine (selector_returns_unused
            {| values := ["A"; "B"; "C"]; used_values := {["B"; "Z"]} |} _).
  exists "A". simpl. split; [left |].
  rewrite elem_of_union, !elem_of_singleton. intros [|]; discriminate.
Defined.

(** X2. With [random.choice], the selector raises exactly when the pool
    is empty; the error is then [IndexError], and the used-set has been
    emptied before it comes. *)
Theorem selector_raises_iff_empty_pool (r : nat) (a : selector_args) :
  ((∃ e, (utils.get_unique_value (random_choice r) a).1 = inl e)
   ↔ values a = []) ∧
  (values a = [] →
   utils.get_unique_value (random_choice r) a
   = (inl IndexError, {| values := []; used_values := ∅ |})).
Proof.
  assert (values a = [] →
          utils.get_unique_value (random_choice r) a
          = (inl IndexError, {| values := []; used_values := ∅ |})) as Hnil.
  { intros Ha. rewrite get_unique_value_unfold, available_exhausted.
    - by rewrite Ha.
    - rewrite Ha. apply difference_disjoint_L, disjoint_empty_l. }
  split; [| done]. split.
  - intros [e He]. destruct (decide (values a = [])) as [| Hne]; [done |].
    rewrite get_unique_value_unfold in He. cbn [fst] in He.
    apply random_choice_inl in He as [_ He].
    by apply available_nonempty, elements_nonempty in Hne.
  - intros Ha. exists IndexError. by rewrite Hnil.
Qed.

(** ** Validation and loading *)
Section validation_more.
Context {V : Type}.
Implicit Types (entry : gmap string V) (data : list (gmap string V)).
Implicit Types (required_keys : list string).

Lemma validate_app data1 data2 required_keys :
  utils.validate_json_structure (data1 ++ data2)%list required_keys
  = match utils.validate_json_structure data1 required_keys with
    | inl e => inl e
    | inr _ => utils.validate_json_structure data2 required_keys
    end.
Proof.
  induction data1 as [| entry data1 IH]; [done |].
  cbn [app utils.validate_json_structure].
  by destruct (utils.validate_entry entry required_keys).
Qed.

End validation_more.

(** X3. Validation of a concatenation: the entries are checked in order,
    so the outcome for [data1 ++ data2] is the error of [data1] when it
    has one, and the outcome for [data2] otherwise. *)
Theorem validation_of_concatenation {V : Type} (data1 data2 : list (gmap string V))
    (required_keys : list string) :
  utils.validate_json_structure (data1 ++ data2)%list required_keys
  = match utils.validate_json_structure data1 required_keys with
    | inl e => inl e
    | inr _ => utils.validate_json_structure data2 required_keys
    end.
Proof. apply validate_app. Qed.

(** X4. The error is that of the first entry whose keys are not the
    required ones; it reports the required keys that entry misses when it
    misses any, and its other keys only when it misses none. Entries
    after it are not looked at. *)
Theorem first_offending_entry {V : Type} (good rest : list (gmap string V))
    (bad : gmap string V) (required_keys : list string) :
  well_keyed required_keys good →
  dom bad ≠ list_to_set required_keys →
  utils.validate_json_structure (good ++ bad :: rest)%list required_keys
  = if decide (list_to_set required_keys ⊆ dom bad)
    then inl (ValueError (InvalidKeys (dom bad ∖ list_to_set required_keys)))
    else inl (ValueError (MissingKeys (list_to_set required_keys ∖ dom bad))).
Proof.
  intros Hgood Hbad.
  rewrite validate_app, validate_well_keyed by done.
  cbn [utils.validate_json_structure]. unfold utils.validate_entry.
  destruct (decide (list_to_set required_keys ⊆ dom bad)) as [Hsub | Hsub].
  - rewrite bool_decide_eq_false_2.
    2:{ intros Hne. apply Hne. apply set_eq. intros k.
        rewrite elem_of_difference. split; [| by intros ?%not_elem_of_empty].
        intros [Hk Hno]. destruct Hno. by apply Hsub. }
    rewrite bool_decide_eq_true_2; [done |].
    intros He. apply Hbad. apply set_eq. intros k. split; intros Hk.
    + destruct (decide (k ∈ (list_to_set required_keys : gset string))) as [| Hno];
        [done |].
      assert (k ∈ dom bad ∖ list_to_set required_keys) as Hin
        by (by apply elem_of_difference).
      rewrite He in Hin. by apply not_elem_of_empty in Hin.
    + by apply Hsub.
  - rewrite bool_decide_eq_true_2; [done |].
    intros He. apply Hsub. intros k Hk.
    destruct (decide (k ∈ dom bad)) as [| Hno]; [done |].
    assert (k ∈ (list_to_set required_keys ∖ dom bad : gset string)) as Hin
      by (by apply elem_of_difference).
    rewrite He in Hin. by apply not_elem_of_empty in Hin.
Qed.

(** A record without gender after a valid one, and one more after it. *)
Lemma first_offending_entry_witness :
  utils.validate_json_structure
    (sample_names ++ {[ "tribe" := "igbo"; "name" := "Okafor"; "clan" := "Umu" ]}
       :: sample_names)%list
    ["tribe"; "gender"; "name"]
  = if decide (list_to_set ["tribe"; "gender"; "name"]
               ⊆ dom ({[ "tribe" := "igbo"; "name" := "Okafor"; "clan" := "Umu" ]}
                      : gmap string string))
    then inl (ValueError (InvalidKeys
           (dom ({[ "tribe" := "igbo"; "name" := "Okafor"; "clan" := "Umu" ]}
                 : gmap string string) ∖ list_to_set ["tribe"; "gender"; "name"])))
    else inl (ValueError (MissingKeys
           (list_to_set ["tribe"; "gender"; "name"]
            ∖ dom ({[ "tribe" := "igbo"; "name" := "Okafor"; "clan" := "Umu" ]}
                   : gmap string string)))).
Proof.
  apply (first_offending_entry sample_names sample_names
           {[ "tribe" := "igbo"; "name" := "Okafor"; "clan" := "Umu" ]}
           ["tribe"; "gender"; "name"]).
  - apply (bool_decide_unpack _). vm_compute. exact I.
  - apply (bool_decide_unpack _). vm_compute. exact I.
Defined.

(** X5. Only the set of required keys counts: two lists of required keys
    with the same members, in any order and with any repeats, give the
    same outcome on every list of entries. *)
Theorem required_keys_as_a_set {V : Type} (data : list (gmap string V))
    (required_keys required_keys' : list string) :
  (∀ k, k ∈ required_keys ↔ k ∈ required_keys') →
  utils.validate_json_structure data required_keys
  = utils.validate_json_structure data required_keys'.
Proof.
  intros Hsame.
  assert ((list_to_set required_keys : gset string) = list_to_set required_keys')
    as Hset by (apply set_eq; intros k; by rewrite !elem_of_list_to_set).
  induction data as [| entry data IH]; [done |].
  cbn [utils.validate_json_structure]. rewrite IH.
  unfold utils.validate_entry. by rewrite Hset.
Qed.

(** The keys of the sample records, shuffled and with one repeated. *)
Lemma required_keys_as_a_set_witness :
  utils.validate_json_structure sample_names ["tribe"; "gender"; "name"]
  = utils.validate_json_structure sample_names ["name"; "tribe"; "name"; "gender"].
Proof.
  apply (required_keys_as_a_set sample_names ["tribe"; "gender"; "name"]
           ["name"; "tribe"; "name"; "gender"]).
  intros k. rewrite !elem_of_cons. tauto.
Defined.



(** ** The Degree mixin *)
Section degree_more.
Import degree_mixin.
Implicit Types (self : Degree) (dt : option string) (init : bool).

Lemma available_used a :
  used_values (utils.available a).2 = used_values a ∨
  used_values (utils.available a).2 = ∅.
Proof.
  destruct (decide (list_to_set (values a) ∖ used_values a = ∅)) as [He | Hne].
  - rewrite available_exhausted by done. by right.
  - rewrite available_unused by done. by left.
Qed.

Lemma degree_calls_app rs1 rs2 self dt init :
  degree_calls (rs1 ++ rs2)%list self dt init
  = match degree_calls rs1 self dt init with
    | (inl e, self1) => (inl e, self1)
    | (inr ds1, self1) =>
        match degree_calls rs2 self1 dt init with
        | (inl e, self2) => (inl e, self2)
        | (inr ds2, self2) => (inr (ds1 ++ ds2)%list, self2)
        end
    end.
Proof.
  revert self. induction rs1 as [| r rs1 IH]; intros self.
  - cbn [app degree_calls]. by destruct (degree_calls rs2 self dt init) as [[|] ?].
  - cbn [app degree_calls].
    destruct (degree (random_choice r) self dt init) as [[e | d] self1]; [done |].
    rewrite IH. destruct (degree_calls rs1 self1 dt init) as [[e | ds1] self2]; [done |].
    by destruct (degree_calls rs2 self2 dt init) as [[|] ?].
Qed.

(** A round that starts with every pool value used: the first call starts
    over, the others complete the pool. *)
Lemma degree_calls_round rs self dt init :
  accepted dt →
  NoDup (degrees_of self dt init) →
  degrees_of self dt init ≠ [] →
  length rs = length (degrees_of self dt init) →
  list_to_set (degrees_of self dt init) ∖ _used_degrees self = ∅ →
  ∃ ds, degree_calls rs self dt init
        = (inr ds, with_used self (list_to_set (degrees_of self dt init))) ∧
        ds ≡ₚ degrees_of self dt init.
Proof.
  intros Hok Hnd Hne Hlen Hex.
  destruct rs as [| r rs].
  { destruct (degrees_of self dt init); [done | discriminate]. }
  cbn [degree_calls]. rewrite degree_exhausted by done.
  destruct (random_choice_elem_of r
              (elements (list_to_set (degrees_of self dt init) : gset string)))
    as (d & -> & Hd).
  { by apply elements_nonempty, list_to_set_nonempty. }
  apply elem_of_elements, elem_of_list_to_set in Hd.
  destruct (degree_calls_unused rs (with_used self {[d]}) dt init Hok)
    as (ds & Hrun & Hds & Hnd' & Hin).
  { rewrite degrees_of_with_used. cbn [with_used _used_degrees].
    rewrite size_difference, size_singleton, size_list_to_set by
      (done || by apply singleton_subseteq_l, elem_of_list_to_set).
    cbn [length] in Hlen. lia. }
  rewrite Hrun.
  rewrite degrees_of_with_used in Hin. cbn [with_used _used_degrees] in Hin.
  assert (d :: ds ≡ₚ degrees_of self dt init) as Hperm.
  { apply submseteq_length_Permutation; [| cbn [length] in *; lia].
    apply NoDup_submseteq.
    - constructor; [| done]. intros Hd'. apply Hin in Hd' as [_ Hno].
      apply Hno. by apply elem_of_singleton.
    - intros x [-> | Hx]%elem_of_cons; [done | by apply Hin]. }
  exists (d :: ds). split; [| done].
  unfold with_used. cbn. do 2 f_equal.
  apply set_eq. intros x.
  rewrite elem_of_union, elem_of_singleton, !elem_of_list_to_set, <- Hperm, elem_of_cons.
  tauto.
Qed.

(** Rounds one after the other, from an object that is fresh or has
    every pool value used. *)
Lemma degree_calls_rounds rss self dt init :
  accepted dt →
  NoDup (degrees_of self dt init) →
  degrees_of self dt init ≠ [] →
  Forall (λ rs, length rs = length (degrees_of self dt init)) rss →
  _used_degrees self = ∅ ∨
  list_to_set (degrees_of self dt init) ∖ _used_degrees self = ∅ →
  ∃ dss self',
    degree_calls (concat rss) self dt init = (inr (concat dss), self') ∧
    Forall2 (λ rs ds, ds ≡ₚ degrees_of self dt init) rss dss.
Proof.
  intros Hok Hnd Hne Hall. revert self Hnd Hne Hall.
  induction rss as [| rs rss IH]; intros self Hnd Hne Hall Hstart.
  { exists [], self. split; [done | constructor]. }
  apply Forall_cons in Hall as [Hlen Hall].
  assert (∃ ds, degree_calls rs self dt init
                = (inr ds, with_used self (list_to_set (degrees_of self dt init))) ∧
                ds ≡ₚ degrees_of self dt init) as (ds & Hrun & Hperm).
  { destruct Hstart as [Hfresh | Hex]; [| by apply degree_calls_round].
    destruct self as [provider used]. cbn [_used_degrees] in Hfresh. subst used.
    by apply (degree_calls_whole_pool provider dt init rs). }
  destruct (IH (with_used self (list_to_set (degrees_of self dt init))))
    as (dss & self' & Hrest & Hperms); try done.
  { right. rewrite degrees_of_with_used. cbn [with_used _used_degrees].
    apply difference_diag_L. }
  exists (ds :: dss), self'. cbn [concat].
  rewrite degree_calls_app, Hrun, Hrest. split; [done |].
  constructor; [done |]. by rewrite degrees_of_with_used in Hperms.
Qed.
End degree_more.

(** X8. What a successful call records, for every choice function: the
    returned value is in the used-set afterwards, the used-set is the old
    one with that value added or, after a reset, that value alone, and
    the provider is the same. *)
Theorem degree_records_result (choice : list string → exn + string)
    (self self' : degree_mixin.Degree) (degree_type : option string)
    (initial : bool) (d : string) :
  degree_mixin.degree choice self degree_type initial = (inr d, self') →
  d ∈ degree_mixin._used_degrees self' ∧
  degree_mixin.degree_provider self' = degree_mixin.degree_provider self ∧
  (degree_mixin._used_degrees self' = {[d]} ∪ degree_mixin._used_degrees self ∨
   degree_mixin._used_degrees self' = {[d]}).
Proof.
  intros Hcall.
  destruct (degree_mixin.truthy degree_type
            && degree_mixin.not_in degree_type degree_mixin.degree_types) eqn:Hchk.
  { unfold degree_mixin.degree in Hcall. by rewrite Hchk in Hcall. }
  apply accepted_check in Hchk.
  rewrite degree_accepted in Hcall by done. cbn zeta in Hcall.
  destruct (choice _) as [e | d']; [done |]. injection Hcall as <- <-.
  cbn [with_used degree_mixin._used_degrees degree_mixin.degree_provider].
  split; [apply elem_of_union_l; by apply elem_of_singleton |]. split; [done |].
  destruct (available_used
              {| values := degree_mixin.degrees_of self degree_type initial;
                 used_values := degree_mixin._used_degrees self |}) as [-> | ->].
  - by left.
  - right. apply union_empty_r_L.
Qed.

(** The first call on a fresh object of the sample provider. *)
Lemma degree_records_result_witness :
  "M.Sc." ∈ degree_mixin._used_degrees
              (with_used (degree_mixin.__init__ sample_provider) {["M.Sc."]}) ∧
  degree_mixin.degree_provider
    (with_used (degree_mixin.__init__ sample_provider) {["M.Sc."]})
  = degree_mixin.degree_provider (degree_mixin.__init__ sample_provider) ∧
  (degree_mixin._used_degrees
     (with_used (degree_mixin.__init__ sample_provider) {["M.Sc."]})
   = {["M.Sc."]} ∪ degree_mixin._used_degrees (degree_mixin.__init__ sample_provider) ∨
   degree_mixin._used_degrees
     (with_used (degree_mixin.__init__ sample_provider) {["M.Sc."]})
   = {["M.Sc."]}).
Proof.
  apply (degree_records_result (random_choice 0)
           (degree_mixin.__init__ sample_provider)
           (with_used (degree_mixin.__init__ sample_provider) {["M.Sc."]})
           None true "M.Sc.").
  vm_compute. reflexivity.
Defined.

(** X9. With [random.choice], a call returns a value exactly when the
    filter passes the check and the provider's list is not empty, and
    raises [IndexError] exactly when the filter passes the check and the
    list is empty. *)
Theorem degree_outcomes (r : nat) (self : degree_mixin.Degree)
    (degree_type : option string) (initial : bool) :
  ((∃ d self', degree_mixin.degree (random_choice r) self degree_type initial
               = (inr d, self'))
   ↔ accepted degree_type ∧ degree_mixin.degrees_of self degree_type initial ≠ []) ∧
  ((degree_mixin.degree (random_choice r) self degree_type initial).1 = inl IndexError
   ↔ accepted degree_type ∧ degree_mixin.degrees_of self degree_type initial = []).
Proof.
  destruct (degree_mixin.truthy degree_type
            && degree_mixin.not_in degree_type degree_mixin.degree_types) eqn:Hchk.
  { assert (¬ accepted degree_type) as Hno
      by (rewrite accepted_check; congruence).
    unfold degree_mixin.degree. rewrite Hchk. cbn [fst].
    split; (split; [| by intros [? _]]); [by intros (? & ? & [=]) | by intros [=]]. }
  apply accepted_check in Hchk.
  destruct (degree_mixin.degrees_of self degree_type initial) as [| x l] eqn:Hpool.
  - rewrite degree_empty_pool, random_choice_nil by done. cbn [fst].
    split; (split; [| by intros [_ ?]]); [by intros (? & ? & [=]) | done].
  - assert (degree_mixin.degrees_of self degree_type initial ≠ []) as Hne
      by (by rewrite Hpool).
    rewrite <- Hpool. rewrite degree_accepted by done. cbn zeta.
    destruct (random_choice_elem_of r
      (elements (utils.available
         {| values := degree_mixin.degrees_of self degree_type initial;
            used_values := degree_mixin._used_degrees self |}).1))
      as (d & -> & _).
    { by apply elements_nonempty, available_nonempty. }
    cbn [fst]. split; split; try done.
    + intros _. eauto.
    + intros [_ Hnil]. by rewrite Hpool in Hnil.
Qed.

(** X10. While the requested pool has a value that is not in the
    used-set, a call returns one such value whatever the draw (so none
    that any earlier call recorded, under this filter or another) and the
    used-set grows by exactly that value. *)
Theorem degree_returns_unused (r : nat) (self : degree_mixin.Degree)
    (degree_type : option string) (initial : bool) :
  accepted degree_type →
  (∃ v, v ∈ degree_mixin.degrees_of self degree_type initial ∧
        v ∉ degree_mixin._used_degrees self) →
  ∃ d, degree_mixin.degree (random_choice r) self degree_type initial
       = (inr d, with_used self ({[d]} ∪ degree_mixin._used_degrees self)) ∧
       d ∈ degree_mixin.degrees_of self degree_type initial ∧
       (d ∉ degree_mixin._used_degrees self) ∧
       size ({[d]} ∪ degree_mixin._used_degrees self)
       = S (size (degree_mixin._used_degrees self)).
Proof.
  intros Hok Hne.
  destruct (degree_unused r self degree_type initial Hok) as (d & Hd & Hu & Hcall).
  { by apply (unused_iff
                {| values := degree_mixin.degrees_of self degree_type initial;
                   used_values := degree_mixin._used_degrees self |}). }
  exists d. split; [done |]. split; [done |]. split; [done |].
  rewrite size_union, size_singleton; [done |].
  by apply disjoint_singleton_l.
Qed.

(** The initials of the sample provider after ["B.Sc."] and a full name
    were handed out. *)
Lemma degree_returns_unused_witness :
  ∃ d, degree_mixin.degree (random_choice 6)
         {| degree_mixin.degree_provider := sample_provider;
            degree_mixin._used_degrees := {["B.Sc."; "Master of Science"]} |}
         (Some "masters") true
       = (inr d,
          with_used
            {| degree_mixin.degree_provider := sample_provider;
               degree_mixin._used_degrees := {["B.Sc."; "Master of Science"]} |}
            ({[d]} ∪ {["B.Sc."; "Master of Science"]})) ∧
       d ∈ ["B.Sc."; "M.Sc."] ∧
       (d ∉ ({["B.Sc."; "Master of Science"]} : gset string)) ∧
       size ({[d]} ∪ ({["B.Sc."; "Master of Science"]} : gset string))
       = S (size ({["B.Sc."; "Master of Science"]} : gset string)).
Proof.
  refine (degree_returns_unused 6
            {| degree_mixin.degree_provider := sample_provider;
               degree_mixin._used_degrees := {["B.Sc."; "Master of Science"]} |}
            (Some "masters") true _ _).
  - intros s [= <-]. right. vm_compute. do 1 right. left.
  - exists "M.Sc.". split; [vm_compute; right; left |].
    simpl. rewrite elem_of_union, !elem_of_singleton. intros [|]; discriminate.
Defined.

(** X11. When every value of the requested pool is in the used-set, a
    call returns a pool value and leaves that value alone in the used-set:
    everything else is forgotten, the values recorded under other filters
    as well. *)
Theorem degree_reset_forgets_all (r : nat) (self : degree_mixin.Degree)
    (degree_type : option string) (initial : bool) :
  accepted degree_type →
  degree_mixin.degrees_of self degree_type initial ≠ [] →
  (∀ v, v ∈ degree_mixin.degrees_of self degree_type initial →
        v ∈ degree_mixin._used_degrees self) →
  ∃ d, degree_mixin.degree (random_choice r) self degree_type initial
       = (inr d, with_used self {[d]}) ∧
       d ∈ degree_mixin.degrees_of self degree_type initial ∧
       ∀ v, v ≠ d → v ∉ degree_mixin._used_degrees (with_used self {[d]}).
Proof.
  intros Hok Hne Hall.
  rewrite degree_exhausted; [| done |].
  2:{ by apply (exhausted_iff
                  {| values := degree_mixin.degrees_of self degree_type initial;
                     used_values := degree_mixin._used_degrees self |}). }
  destruct (random_choice_elem_of r
              (elements (list_to_set
                 (degree_mixin.degrees_of self degree_type initial) : gset string)))
    as (d & -> & Hd).
  { by apply elements_nonempty, list_to_set_nonempty. }
  apply elem_of_elements, elem_of_list_to_set in Hd.
  exists d. split; [done |]. split; [done |].
  intros v Hv. cbn [with_used degree_mixin._used_degrees].
  by rewrite elem_of_singleton.
Qed.

(** Both initials used, and a full name recorded by a call without
    [initial]. *)
Lemma degree_reset_forgets_all_witness :
  ∃ d, degree_mixin.degree (random_choice 3)
         {| degree_mixin.degree_provider := sample_provider;
            degree_mixin._used_degrees := {["B.Sc."; "M.Sc."; "Master of Science"]} |}
         None true
       = (inr d,
          with_used
            {| degree_mixin.degree_provider := sample_provider;
               degree_mixin._used_degrees :=
                 {["B.Sc."; "M.Sc."; "Master of Science"]} |} {[d]}) ∧
       d ∈ ["B.Sc."; "M.Sc."] ∧
       ∀ v, v ≠ d →
            v ∉ degree_mixin._used_degrees
                  (with_used
                     {| degree_mixin.degree_provider := sample_provider;
                        degree_mixin._used_degrees :=
                          {["B.Sc."; "M.Sc."; "Master of Science"]} |} {[d]}).
Proof.
  refine (degree_reset_forgets_all 3
            {| degree_mixin.degree_provider := sample_provider;
               degree_mixin._used_degrees :=
                 {["B.Sc."; "M.Sc."; "Master of Science"]} |} None true _ _ _).
  - intros s. discriminate.
  - vm_compute. discriminate.
  - intros v. vm_compute degree_mixin.degrees_of. simpl.
    rewrite !elem_of_cons, elem_of_nil, !elem_of_union, !elem_of_singleton. tauto.
Defined.

(** X12. Round after round. On a fresh object and a pool of N distinct
    values, any number of rounds of N calls all return, and each round
    returns the pool in some order: every value once per round. *)
Theorem every_round_is_the_pool (provider : degree_mixin.DegreeProvider)
    (degree_type : option string) (initial : bool) (rss : list (list nat)) :
  accepted degree_type →
  NoDup (degree_mixin.degrees_of (degree_mixin.__init__ provider) degree_type initial) →
  degree_mixin.degrees_of (degree_mixin.__init__ provider) degree_type initial ≠ [] →
  Forall (λ rs, length rs
                = length (degree_mixin.degrees_of (degree_mixin.__init__ provider)
                            degree_type initial)) rss →
  ∃ dss self',
    degree_mixin.degree_calls (concat rss) (degree_mixin.__init__ provider)
      degree_type initial
    = (inr (concat dss), self') ∧
    Forall2 (λ rs ds,
               ds ≡ₚ degree_mixin.degrees_of (degree_mixin.__init__ provider)
                       degree_type initial) rss dss.
Proof.
  intros Hok Hnd Hne Hall.
  apply degree_calls_rounds; try done. by left.
Qed.

(** Three rounds on the two initials of the sample provider. *)
Lemma every_round_is_the_pool_witness :
  ∃ dss self',
    degree_mixin.degree_calls (concat [[5; 8]; [1; 2]; [0; 0]])
      (degree_mixin.__init__ sample_provider) None true
    = (inr (concat dss), self') ∧
    Forall2 (λ rs ds, ds ≡ₚ ["B.Sc."; "M.Sc."]) [[5; 8]; [1; 2]; [0; 0]] dss.
Proof.
  refine (every_round_is_the_pool sample_provider None true
            [[5; 8]; [1; 2]; [0; 0]] _ _ _ _).
  - intros s. discriminate.
  - apply (bool_decide_unpack _). vm_compute. exact I.
  - vm_compute. discriminate.
  - repeat constructor.
Defined.

(** X13. Nothing unused is left out: every value of the requested pool
    that is not in the used-set is returned by the call on some draw, and
    is then recorded. *)
Theorem degree_can_return_each_unused (self : degree_mixin.Degree)
    (degree_type : option string) (initial : bool) (d : string) :
  accepted degree_type →
  d ∈ degree_mixin.degrees_of self degree_type initial →
  d ∉ degree_mixin._used_degrees self →
  ∃ r, degree_mixin.degree (random_choice r) self degree_type initial
       = (inr d, with_used self ({[d]} ∪ degree_mixin._used_degrees self)).
Proof.
  intros Hok Hd Hu.
  assert (list_to_set (degree_mixin.degrees_of self degree_type initial)
          ∖ degree_mixin._used_degrees self ≠ ∅) as Hne.
  { apply (unused_iff
             {| values := degree_mixin.degrees_of self degree_type initial;
                used_values := degree_mixin._used_degrees self |}).
    by exists d. }
  destruct (random_choice_any
              (elements (list_to_set (degree_mixin.degrees_of self degree_type initial)
                         ∖ degree_mixin._used_degrees self)) d)
    as (r & _ & Hr).
  { apply elem_of_elements, elem_of_difference.
    split; [by apply elem_of_list_to_set | done]. }
  exists r. rewrite degree_accepted by done. cbn zeta.
  rewrite available_unused by done. cbn [fst snd used_values values].
  by rewrite Hr.
Qed.

(** ["Master of Science"] on a fresh object of the sample provider. *)
Lemma degree_can_return_each_unused_witness :
  ∃ r, degree_mixin.degree (random_choice r) (degree_mixin.__init__ sample_provider)
         (Some "undergraduate") false
       = (inr "Master of Science",
          with_used (degree_mixin.__init__ sample_provider)
            ({["Master of Science"]}
             ∪ degree_mixin._used_degrees (degree_mixin.__init__ sample_provider))).
Proof.
  refine (degree_can_return_each_unused (degree_mixin.__init__ sample_provider)
            (Some "undergraduate") false "Master of Science" _ _ _).
  - intros s [= <-]. right. vm_compute. left.
  - vm_compute. right. left.
  - simpl. apply not_elem_of_empty.
Defined.
